(** * One-sample z-test (index.ipynb): the z-statistic and the upper-tail p-value

    The notebook computes, in its first code cell,
      [z = (x_bar - mu)/(sigma/sqrt(n))]
    and later
      [stats.norm.cdf(z)]          (the area below the z-statistic)
      [pval = 1 - stats.norm.cdf(z)]
    Python floats are modelled by real numbers; the Python exceptions that
    these expressions can raise ([ZeroDivisionError] for a division by zero,
    [ValueError] for [math.sqrt] of a negative number) are modelled by an
    error result.  The standard normal CDF [stats.norm.cdf] belongs to SciPy,
    not to this repository: it is a parameter [Phi] of the development. *)

From Stdlib Require Import Reals.Reals Psatz.

Open Scope R_scope.

(** ** Python evaluation results *)

Inductive py_error : Type :=
| ZeroDivisionError
| ValueError.

Inductive py_result (A : Type) : Type :=
| Ok : A -> py_result A
| Raise : py_error -> py_result A.

Arguments Ok {A} _.
Arguments Raise {A} _.

Definition py_bind {A B : Type} (m : py_result A) (f : A -> py_result B) : py_result B :=
  match m with
  | Ok a => f a
  | Raise e => Raise e
  end.

Notation "'let!' x := m 'in' f" := (py_bind m (fun x => f))
  (at level 200, x name, m at level 100, f at level 200).

(** Python's [/] on numbers: raises [ZeroDivisionError] on a zero divisor. *)
Definition py_div (a b : R) : py_result R :=
  if Req_EM_T b 0 then Raise ZeroDivisionError else Ok (a / b).

(** [math.sqrt]: raises [ValueError] ("math domain error") below zero. *)
Definition py_sqrt (x : R) : py_result R :=
  if Rlt_dec x 0 then Raise ValueError else Ok (sqrt x).

(** ** Cell 1: the z-statistic

    [z = (x_bar - mu)/(sigma/sqrt(n))], evaluated left to right as Python
    does: [sqrt(n)], then [sigma/sqrt(n)], then the outer division. *)
Definition z_statistic (x_bar mu sigma n : R) : py_result R :=
  let! s := py_sqrt n in
  let! se := py_div sigma s in
  py_div (x_bar - mu) se.

(** The notebook's own inputs. *)
Definition x_bar : R := 103.
Definition n : R := 40.
Definition sigma : R := 16.
Definition mu : R := 100.

(** ** Cells 5 and 7: the CDF value and the upper-tail p-value *)
Section PValue.

Variable Phi : R -> R.

(** Cell 5: [stats.norm.cdf(z)], the area below the z-statistic. *)
Definition area_below (z : R) : R := Phi z.

(** Cell 7: [pval = 1 - stats.norm.cdf(z)]. *)
Definition pval (z : R) : R := 1 - Phi z.

End PValue.

(** ** A concrete CDF-shaped function

    Not the normal CDF: a simple nondecreasing function onto (0,1) that is
    symmetric about 0 like it, used to instantiate [Phi] in examples. *)
Definition phi_toy (x : R) : R := 1 / 2 + x / (2 * (1 + Rabs x)).

(** ** Evaluation of the z-statistic *)

Lemma py_sqrt_pos (k : R) : 0 < k -> py_sqrt k = Ok (sqrt k).
Proof.
  intros Hk. unfold py_sqrt.
  destruct (Rlt_dec k 0) as [H|H]; [lra | reflexivity].
Qed.

Lemma py_div_nonzero (a b : R) : b <> 0 -> py_div a b = Ok (a / b).
Proof.
  intros Hb. unfold py_div.
  destruct (Req_EM_T b 0) as [H|H]; [contradiction | reflexivity].
Qed.

Lemma z_statistic_ok (xb m s k : R) :
  0 < s -> 0 < k -> z_statistic xb m s k = Ok ((xb - m) / (s / sqrt k)).
Proof.
  intros Hs Hk. pose proof (sqrt_lt_R0 k Hk) as Hr.
  unfold z_statistic. rewrite (py_sqrt_pos k Hk). simpl.
  rewrite py_div_nonzero by lra. simpl.
  rewrite py_div_nonzero; [reflexivity|].
  apply Rgt_not_eq, Rdiv_lt_0_compat; assumption.
Qed.

Lemma z_closed_form (d s k : R) :
  0 < s -> 0 < k -> d / (s / sqrt k) = d * (sqrt k * / s).
Proof.
  intros Hs Hk. pose proof (sqrt_lt_R0 k Hk). field. split; lra.
Qed.

Lemma sqrt_40_bounds : 6.324555320336 < sqrt 40 < 6.324555320337.
Proof.
  pose proof (sqrt_sqrt 40 ltac:(lra)). pose proof (sqrt_pos 40).
  split; nra.
Qed.

Lemma phi_toy_sym (x : R) : phi_toy (- x) = 1 - phi_toy x.
Proof.
  unfold phi_toy. rewrite Rabs_Ropp.
  pose proof (Rabs_pos x). field. lra.
Qed.

Lemma phi_toy_mono (a b : R) : a <= b -> phi_toy a <= phi_toy b.
Proof.
  intros Hab. unfold phi_toy.
  pose proof (Rabs_pos a) as Ha. pose proof (Rabs_pos b) as Hb.
  apply Rplus_le_compat_l.
  unfold Rdiv. rewrite !Rinv_mult.
  assert (a * / (1 + Rabs a) <= b * / (1 + Rabs b)).
  { apply (Rmult_le_reg_r ((1 + Rabs a) * (1 + Rabs b))); [nra|].
    replace (a * / (1 + Rabs a) * ((1 + Rabs a) * (1 + Rabs b)))
      with (a * (1 + Rabs b)) by (field; lra).
    replace (b * / (1 + Rabs b) * ((1 + Rabs a) * (1 + Rabs b)))
      with (b * (1 + Rabs a)) by (field; lra).
    destruct (Rcase_abs a) as [Ha'|Ha']; destruct (Rcase_abs b) as [Hb'|Hb'];
      [rewrite (Rabs_left a), (Rabs_left b) by lra
      |rewrite (Rabs_left a), (Rabs_right b) by lra
      |rewrite (Rabs_right a), (Rabs_left b) by lra
      |rewrite (Rabs_right a), (Rabs_right b) by lra]; nra. }
  nra.
Qed.

(** ** Claims about the z-statistic *)

(** C1: for [sigma > 0] and [n > 0] cell 1 returns
    [(x_bar - mu) / (sigma / sqrt n)], and on the notebook's inputs
    (103, 100, 16, 40) that value is 1.1858541225631423 up to 1e-12. *)
Theorem z_statistic_correct (xb m s k : R) (Hs : 0 < s) (Hk : 0 < k) :
  z_statistic xb m s k = Ok ((xb - m) / (s / sqrt k)) /\
  exists z, z_statistic x_bar mu sigma n = Ok z /\
            Rabs (z - 1.1858541225631423) < 1e-12.
Proof.
  split; [apply z_statistic_ok; assumption|].
  unfold x_bar, mu, sigma, n.
  eexists; split; [apply z_statistic_ok; lra|].
  pose proof sqrt_40_bounds as [Hl Hu].
  rewrite z_closed_form by lra.
  apply Rabs_def1; lra.
Qed.

Lemma z_statistic_correct_witness :
  (0 < 16 /\ 0 < 40) /\
  z_statistic 103 100 16 40 = Ok ((103 - 100) / (16 / sqrt 40)).
Proof.
  split; [lra|].
  apply (proj1 (z_statistic_correct 103 100 16 40 ltac:(lra) ltac:(lra))).
Defined.

(** C5 (counterexample): no [InvalidParameter] check exists; a negative
    population standard deviation is accepted and yields a value. *)
Lemma z_statistic_negative_sigma_accepted :
  z_statistic x_bar mu (-16) n = Ok ((x_bar - mu) / (-16 / sqrt n)).
Proof.
  unfold x_bar, mu, n. pose proof sqrt_40_bounds.
  unfold z_statistic. rewrite py_sqrt_pos by lra. simpl.
  rewrite py_div_nonzero by lra. simpl.
  rewrite py_div_nonzero; [reflexivity|].
  apply Rlt_not_eq, Rdiv_neg_pos; lra.
Qed.

(** C5 (amended): cell 1 validates nothing.  A negative sample size makes
    [math.sqrt] raise [ValueError]; otherwise a zero sample size or a zero
    population standard deviation makes a division raise
    [ZeroDivisionError]; a negative population standard deviation with a
    positive sample size is accepted and gives the formula's value. *)
Theorem z_statistic_errors (xb m s k : R) :
  (k < 0 -> z_statistic xb m s k = Raise ValueError) /\
  (k = 0 -> z_statistic xb m s k = Raise ZeroDivisionError) /\
  (s = 0 -> 0 <= k -> z_statistic xb m s k = Raise ZeroDivisionError) /\
  (s < 0 -> 0 < k -> z_statistic xb m s k = Ok ((xb - m) / (s / sqrt k))).
Proof.
  unfold z_statistic, py_sqrt.
  split; [|split; [|split]]; intros Hs.
  - destruct (Rlt_dec k 0); [reflexivity | lra].
  - subst k. destruct (Rlt_dec 0 0); [lra|]. simpl.
    rewrite sqrt_0. unfold py_div.
    destruct (Req_EM_T 0 0); [reflexivity | congruence].
  - intros Hk. subst s. destruct (Rlt_dec k 0); [lra|]. simpl.
    unfold py_div. destruct (Req_EM_T (sqrt k) 0) as [E|E]; [reflexivity|].
    simpl. rewrite Rdiv_0_l.
    destruct (Req_EM_T 0 0); [reflexivity | congruence].
  - intros Hk. pose proof (sqrt_lt_R0 k Hk).
    destruct (Rlt_dec k 0); [lra|]. simpl.
    rewrite py_div_nonzero by lra. simpl.
    rewrite py_div_nonzero; [reflexivity|].
    apply Rlt_not_eq, Rdiv_neg_pos; lra.
Qed.

Lemma z_statistic_errors_witness :
  z_statistic 103 100 16 (-1) = Raise ValueError /\
  z_statistic 103 100 16 0 = Raise ZeroDivisionError /\
  z_statistic 103 100 0 40 = Raise ZeroDivisionError /\
  z_statistic 103 100 (-16) 40 = Ok ((103 - 100) / (-16 / sqrt 40)).
Proof.
  split; [|split; [|split]].
  - apply (proj1 (z_statistic_errors 103 100 16 (-1))). lra.
  - apply (proj1 (proj2 (z_statistic_errors 103 100 16 0))). reflexivity.
  - apply (proj1 (proj2 (proj2 (z_statistic_errors 103 100 0 40)))); [reflexivity | lra].
  - apply (proj2 (proj2 (proj2 (z_statistic_errors 103 100 (-16) 40)))); lra.
Defined.

(** C9 (counterexample): equal means give [z = 0], which is not negative. *)
Lemma z_statistic_equal_means_zero :
  z_statistic 100 100 sigma n = Ok 0.
Proof.
  unfold sigma, n. rewrite z_statistic_ok by lra.
  f_equal. unfold Rdiv. rewrite Rminus_diag. apply Rmult_0_l.
Qed.

(** C9 (amended): for [sigma > 0] and [n > 0] the z-statistic is positive
    when the sample mean exceeds the population mean, negative when it is
    below it and zero when they are equal; its magnitude is
    [|x_bar - mu| * sqrt n / sigma], so it does not decrease when [n] or
    [|x_bar - mu|] grows and does not increase when [sigma] grows. *)
Theorem z_statistic_sign_magnitude (xb m s k : R) (Hs : 0 < s) (Hk : 0 < k) :
  exists z, z_statistic xb m s k = Ok z /\
    (m < xb -> 0 < z) /\ (xb < m -> z < 0) /\ (xb = m -> z = 0) /\
    Rabs z = Rabs (xb - m) * sqrt k / s /\
    (forall k', k <= k' ->
       exists z', z_statistic xb m s k' = Ok z' /\ Rabs z <= Rabs z') /\
    (forall xb', Rabs (xb - m) <= Rabs (xb' - m) ->
       exists z', z_statistic xb' m s k = Ok z' /\ Rabs z <= Rabs z') /\
    (forall s', s <= s' ->
       exists z', z_statistic xb m s' k = Ok z' /\ Rabs z' <= Rabs z).
Proof.
  assert (Habs : forall d s0 k0, 0 < s0 -> 0 < k0 ->
            Rabs (d / (s0 / sqrt k0)) = Rabs d * sqrt k0 / s0).
  { intros d s0 k0 H0 H1. rewrite z_closed_form by assumption.
    pose proof (sqrt_lt_R0 k0 H1).
    rewrite Rabs_mult, (Rabs_pos_eq (sqrt k0 * / s0)).
    - unfold Rdiv. ring.
    - apply Rlt_le, Rmult_lt_0_compat; [assumption | apply Rinv_0_lt_compat; assumption]. }
  pose proof (sqrt_lt_R0 k Hk) as Hr.
  pose proof (Rinv_0_lt_compat s Hs) as Hi.
  exists ((xb - m) / (s / sqrt k)).
  split; [apply z_statistic_ok; assumption|].
  rewrite z_closed_form by assumption.
  assert (Hq : 0 < sqrt k * / s) by (apply Rmult_lt_0_compat; assumption).
  split; [intros; apply Rmult_lt_0_compat; lra|].
  split; [intros; nra|].
  split; [intros ->; ring|].
  rewrite <- z_closed_form by assumption.
  split; [apply Habs; assumption|].
  rewrite Habs by assumption.
  pose proof (Rabs_pos (xb - m)) as Hd.
  split; [|split].
  - intros k' Hk'. assert (Hk0 : 0 < k') by lra.
    exists ((xb - m) / (s / sqrt k')).
    split; [apply z_statistic_ok; assumption|].
    rewrite Habs by assumption.
    pose proof (sqrt_le_1_alt k k' Hk').
    unfold Rdiv. apply Rmult_le_compat_r; [lra|].
    apply Rmult_le_compat_l; assumption.
  - intros xb' Hx. exists ((xb' - m) / (s / sqrt k)).
    split; [apply z_statistic_ok; assumption|].
    rewrite Habs by assumption.
    unfold Rdiv. apply Rmult_le_compat_r; [lra|].
    apply Rmult_le_compat_r; lra.
  - intros s' Hs'. assert (Hs0 : 0 < s') by lra.
    exists ((xb - m) / (s' / sqrt k)).
    split; [apply z_statistic_ok; assumption|].
    rewrite Habs by assumption.
    unfold Rdiv. apply Rmult_le_compat_l; [nra|].
    apply Rinv_le_contravar; assumption.
Qed.

Lemma z_statistic_sign_magnitude_witness :
  exists z, z_statistic 103 100 16 40 = Ok z /\ 0 < z.
Proof.
  destruct (z_statistic_sign_magnitude 103 100 16 40 ltac:(lra) ltac:(lra))
    as [z [Hz [Hpos _]]].
  exists z. split; [exact Hz | apply Hpos; lra].
Defined.

(** ** Claims about the p-value *)

(** C2: cell 7 returns [1 - Phi z] for every [z]; when [Phi] takes the
    notebook's value 0.8821600432854813 at the notebook's z-statistic, the
    p-value is 0.11783995671451875 up to 1e-15. *)
Theorem pval_upper_tail (Phi : R -> R) :
  (forall z, pval Phi z = 1 - Phi z) /\
  (forall z, z_statistic x_bar mu sigma n = Ok z ->
     Phi z = 0.8821600432854813 ->
     Rabs (pval Phi z - 0.11783995671451875) < 1e-15).
Proof.
  split; [intros z; reflexivity|].
  intros z _ Hz. unfold pval. rewrite Hz.
  apply Rabs_def1; lra.
Qed.

Lemma pval_upper_tail_witness :
  Rabs (pval (fun _ => 0.8821600432854813) ((103 - 100) / (16 / sqrt 40))
        - 0.11783995671451875) < 1e-15.
Proof.
  apply (proj2 (pval_upper_tail (fun _ => 0.8821600432854813))); [|reflexivity].
  apply z_statistic_ok; lra.
Defined.

(** C4 (counterexample): nothing clamps the p-value; a CDF value that
    overshoots 1 gives a negative p-value. *)
Lemma pval_not_clamped :
  pval (fun _ => 1 + 1e-16) 0 < 0.
Proof. unfold pval. lra. Qed.

(** C4 (amended): the notebook computes only the upper-tail p-value
    [1 - Phi z], without clamping; it lies in [0, 1] exactly when [Phi z]
    does, so it does whenever the CDF value is in [0, 1]. *)
Theorem pval_range (Phi : R -> R) (z : R) :
  0 <= pval Phi z <= 1 <-> 0 <= Phi z <= 1.
Proof. unfold pval. split; intros; lra. Qed.

Lemma pval_range_witness :
  0 <= pval phi_toy 1 <= 1.
Proof.
  apply (proj2 (pval_range phi_toy 1)).
  unfold phi_toy. rewrite Rabs_pos_eq by lra. lra.
Defined.

(** C7 (counterexample): for a CDF that is symmetric about 0 and
    nondecreasing, the area below [z] plus the upper-tail p-value at [-z]
    is not 1 in general ([phi_toy] at [z = 1] gives 3/2). *)
Lemma area_below_pval_reflect_fails :
  ~ (forall Phi : R -> R,
       (forall x, Phi (- x) = 1 - Phi x) ->
       (forall a b, a <= b -> Phi a <= Phi b) ->
       forall z, area_below Phi z + pval Phi (- z) = 1).
Proof.
  intros H. specialize (H phi_toy phi_toy_sym phi_toy_mono 1).
  unfold area_below, pval in H. rewrite phi_toy_sym in H.
  unfold phi_toy in H. rewrite Rabs_pos_eq in H by lra. lra.
Qed.

(** C7 (amended): with a CDF symmetric about 0 ([Phi (-x) = 1 - Phi x]),
    the area below [z] (cell 5) equals the upper-tail p-value at [-z]
    (cell 7), and the area below [z] plus the upper-tail p-value at [z] is 1;
    the sum of the area below [z] and the upper-tail p-value at [-z] is
    [2 * Phi z]. *)
Theorem area_below_pval_reflect (Phi : R -> R)
  (Hsym : forall x, Phi (- x) = 1 - Phi x) (z : R) :
  area_below Phi z = pval Phi (- z) /\
  area_below Phi z + pval Phi z = 1 /\
  area_below Phi z + pval Phi (- z) = 2 * Phi z.
Proof.
  unfold area_below, pval. rewrite Hsym.
  split; [|split]; ring.
Qed.

Lemma area_below_pval_reflect_witness :
  area_below phi_toy 2 = pval phi_toy (- 2).
Proof. apply (area_below_pval_reflect phi_toy phi_toy_sym 2). Defined.

(** C10: with a nondecreasing CDF, the upper-tail p-value is antitone in
    the z-statistic. *)
Theorem pval_antitone (Phi : R -> R)
  (Hmono : forall a b, a <= b -> Phi a <= Phi b) (z1 z2 : R) (Hz : z1 <= z2) :
  pval Phi z2 <= pval Phi z1.
Proof. unfold pval. pose proof (Hmono z1 z2 Hz). lra. Qed.

Lemma pval_antitone_witness :
  pval phi_toy 2 <= pval phi_toy 1.
Proof. apply (pval_antitone phi_toy phi_toy_mono 1 2). lra. Defined.

(** ** Further properties of cells 1, 5 and 7 *)

(** Case analysis of every comparison the Python evaluation performs. *)
Ltac py_cases :=
  repeat match goal with
  | |- context [Rlt_dec ?a ?b] => destruct (Rlt_dec a b)
  | |- context [Req_EM_T ?a ?b] => destruct (Req_EM_T a b)
  end; simpl.

(** Cell 1 evaluated once and for all: which exception, if any, it raises. *)
Lemma z_statistic_eval (xb m s k : R) :
  z_statistic xb m s k =
  if Rlt_dec k 0 then Raise ValueError
  else if Req_EM_T k 0 then Raise ZeroDivisionError
  else if Req_EM_T s 0 then Raise ZeroDivisionError
  else Ok ((xb - m) / (s / sqrt k)).
Proof.
  unfold z_statistic, py_sqrt.
  destruct (Rlt_dec k 0) as [Hn|Hn]; [reflexivity|]. simpl.
  destruct (Req_EM_T k 0) as [Hk|Hk].
  - subst k. rewrite sqrt_0. unfold py_div.
    destruct (Req_EM_T 0 0); [reflexivity | congruence].
  - assert (Hr : 0 < sqrt k) by (apply sqrt_lt_R0; lra).
    rewrite py_div_nonzero by lra. simpl. unfold py_div.
    destruct (Req_EM_T s 0) as [Hs|Hs].
    + subst s. rewrite Rdiv_0_l.
      destruct (Req_EM_T 0 0); [reflexivity | congruence].
    + destruct (Req_EM_T (s / sqrt k) 0) as [E|E]; [|reflexivity].
      exfalso. apply Hs. unfold Rdiv in E.
      apply Rmult_integral in E as [E|E]; [assumption|].
      exfalso. apply (Rinv_neq_0_compat (sqrt k)); lra.
Qed.

(** X1: cell 1 produces a value exactly when the sample size is positive
    and the population standard deviation is nonzero. *)
Theorem z_statistic_defined_iff (xb m s k : R) :
  (exists z, z_statistic xb m s k = Ok z) <-> (0 < k /\ s <> 0).
Proof.
  rewrite z_statistic_eval. py_cases;
    split; intros H; try destruct H as [z Hz]; try discriminate;
    try (exfalso; lra); try (destruct H; contradiction).
  - split; lra.
  - eexists; reflexivity.
Qed.

Lemma z_statistic_defined_iff_witness :
  exists z, z_statistic 103 100 16 40 = Ok z.
Proof. apply (proj2 (z_statistic_defined_iff 103 100 16 40)). split; lra. Defined.

(** X2: shifting the sample mean and the population mean by the same
    amount changes nothing, not even which exception is raised. *)
Theorem z_statistic_shift (xb m s k c : R) :
  z_statistic (xb + c) (m + c) s k = z_statistic xb m s k.
Proof.
  rewrite !z_statistic_eval.
  replace (xb + c - (m + c)) with (xb - m) by ring. reflexivity.
Qed.

(** X3: swapping the sample mean and the population mean negates the
    z-statistic and raises the same exceptions. *)
Theorem z_statistic_swap (xb m s k : R) :
  z_statistic m xb s k = py_bind (z_statistic xb m s k) (fun z => Ok (- z)).
Proof.
  rewrite !z_statistic_eval. py_cases; try reflexivity.
  f_equal. unfold Rdiv. ring.
Qed.

(** X4: expressing the means and the standard deviation in other units
    (multiplying all three by a nonzero [c]) leaves cell 1's outcome
    unchanged. *)
Theorem z_statistic_scale (xb m s k c : R) (Hc : c <> 0) :
  z_statistic (c * xb) (c * m) (c * s) k = z_statistic xb m s k.
Proof.
  rewrite !z_statistic_eval. py_cases; try reflexivity.
  - exfalso. apply Rmult_integral in e as [e|e]; contradiction.
  - exfalso. subst s. apply n2. ring.
  - f_equal. assert (0 < sqrt k) by (apply sqrt_lt_R0; lra).
    field. repeat split; lra.
Qed.

Lemma z_statistic_scale_witness :
  z_statistic (10 * 103) (10 * 100) (10 * 16) 40 = z_statistic 103 100 16 40.
Proof. apply z_statistic_scale. lra. Defined.

(** X5: multiplying the sample size by [c^2] (for [c > 0]) multiplies the
    z-statistic by [c]; e.g. four times the students double it.  The
    exceptions raised are the same. *)
Theorem z_statistic_sample_scale (xb m s k c : R) (Hc : 0 < c) :
  z_statistic xb m s (c ^ 2 * k) =
  py_bind (z_statistic xb m s k) (fun z => Ok (c * z)).
Proof.
  assert (Hc2 : 0 < c ^ 2) by nra.
  destruct (Rtotal_order k 0) as [Hk|[Hk|Hk]].
  - assert (c ^ 2 * k < 0) by nra.
    rewrite !z_statistic_eval. py_cases; try reflexivity; lra.
  - subst k. rewrite Rmult_0_r, !z_statistic_eval. py_cases; try reflexivity; lra.
  - assert (c ^ 2 * k > 0) by nra.
    assert (0 < sqrt k) by (apply sqrt_lt_R0; lra).
    rewrite !z_statistic_eval. py_cases; try reflexivity; try lra.
    f_equal. rewrite sqrt_mult_alt by lra.
    replace (c * (c * 1)) with (c * c) by ring. rewrite sqrt_square by lra.
    field. repeat split; lra.
Qed.

Lemma z_statistic_sample_scale_witness :
  z_statistic 103 100 16 (2 ^ 2 * 40) =
  py_bind (z_statistic 103 100 16 40) (fun z => Ok (2 * z)).
Proof. apply z_statistic_sample_scale. lra. Defined.

Lemma z_abs_closed (d s k : R) :
  0 < s -> 0 < k -> Rabs (d / (s / sqrt k)) = Rabs d * sqrt k / s.
Proof.
  intros Hs Hk. rewrite z_closed_form by assumption.
  pose proof (sqrt_lt_R0 k Hk).
  rewrite Rabs_mult, (Rabs_pos_eq (sqrt k * / s)).
  - unfold Rdiv. ring.
  - apply Rlt_le, Rmult_lt_0_compat; [assumption | apply Rinv_0_lt_compat; assumption].
Qed.

(** X6: with a fixed nonzero mean difference and a positive standard
    deviation, the z-statistic grows without bound with the sample size:
    any magnitude [B] is reached from some sample size on. *)
Theorem z_statistic_unbounded (xb m s : R) (Hd : xb <> m) (Hs : 0 < s) (B : R) :
  exists N, 0 < N /\
    forall k, N <= k -> exists z, z_statistic xb m s k = Ok z /\ B <= Rabs z.
Proof.
  assert (Hd' : 0 < Rabs (xb - m)) by (apply Rabs_pos_lt; lra).
  set (t := Rabs B * s / Rabs (xb - m)).
  assert (Ht : 0 <= t).
  { unfold t, Rdiv. pose proof (Rabs_pos B).
    apply Rmult_le_pos; [nra | apply Rlt_le, Rinv_0_lt_compat; lra]. }
  exists (t ^ 2 + 1). split; [nra|].
  intros k Hk. assert (Hk0 : 0 < k) by nra.
  exists ((xb - m) / (s / sqrt k)). split; [apply z_statistic_ok; lra|].
  rewrite z_abs_closed by lra.
  assert (Hsq : t <= sqrt k).
  { rewrite <- (sqrt_pow2 t Ht). apply sqrt_le_1_alt. lra. }
  assert (Heq : Rabs (xb - m) * t / s = Rabs B).
  { unfold t. field. lra. }
  pose proof (Rle_abs B).
  assert (Rabs (xb - m) * t / s <= Rabs (xb - m) * sqrt k / s).
  { unfold Rdiv. apply Rmult_le_compat_r; [apply Rlt_le, Rinv_0_lt_compat; lra|].
    apply Rmult_le_compat_l; lra. }
  lra.
Qed.

Lemma z_statistic_unbounded_witness :
  exists N, 0 < N /\
    forall k, N <= k -> exists z, z_statistic 103 100 16 k = Ok z /\ 1.96 <= Rabs z.
Proof. apply z_statistic_unbounded; lra. Defined.

(** X7: cells 1 and 7 composed: with a nondecreasing CDF and a positive
    standard deviation, a larger sample mean never gives a larger
    upper-tail p-value. *)
Theorem pval_antitone_in_sample_mean (Phi : R -> R)
  (Hmono : forall a b, a <= b -> Phi a <= Phi b)
  (xb1 xb2 m s k z1 z2 : R) (Hs : 0 < s) (Hx : xb1 <= xb2)
  (H1 : z_statistic xb1 m s k = Ok z1) (H2 : z_statistic xb2 m s k = Ok z2) :
  pval Phi z2 <= pval Phi z1.
Proof.
  rewrite z_statistic_eval in H1, H2.
  destruct (Rlt_dec k 0); [discriminate|].
  destruct (Req_EM_T k 0); [discriminate|].
  destruct (Req_EM_T s 0); [discriminate|].
  injection H1 as <-. injection H2 as <-.
  assert (Hk : 0 < k) by lra.
  rewrite !z_closed_form by lra.
  assert (0 < sqrt k * / s)
    by (apply Rmult_lt_0_compat; [apply sqrt_lt_R0; lra | apply Rinv_0_lt_compat; lra]).
  unfold pval.
  assert (Phi ((xb1 - m) * (sqrt k * / s)) <= Phi ((xb2 - m) * (sqrt k * / s)))
    by (apply Hmono; nra).
  lra.
Qed.

Lemma pval_antitone_in_sample_mean_witness :
  pval phi_toy ((104 - 100) / (16 / sqrt 40))
    <= pval phi_toy ((103 - 100) / (16 / sqrt 40)).
Proof.
  apply (pval_antitone_in_sample_mean phi_toy phi_toy_mono 103 104 100 16 40);
    [lra | lra | apply z_statistic_ok; lra | apply z_statistic_ok; lra].
Defined.

(** X8: cells 1 and 7 composed: when the sample mean is at least the
    population mean, a larger sample never gives a larger upper-tail
    p-value (nondecreasing CDF, positive standard deviation). *)
Theorem pval_antitone_in_sample_size (Phi : R -> R)
  (Hmono : forall a b, a <= b -> Phi a <= Phi b)
  (xb m s k1 k2 z1 z2 : R) (Hs : 0 < s) (Hm : m <= xb) (Hk : k1 <= k2)
  (H1 : z_statistic xb m s k1 = Ok z1) (H2 : z_statistic xb m s k2 = Ok z2) :
  pval Phi z2 <= pval Phi z1.
Proof.
  rewrite z_statistic_eval in H1, H2.
  destruct (Rlt_dec k1 0); [discriminate|].
  destruct (Req_EM_T k1 0); [discriminate|].
  destruct (Rlt_dec k2 0); [discriminate|].
  destruct (Req_EM_T k2 0); [discriminate|].
  destruct (Req_EM_T s 0); [discriminate|].
  injection H1 as <-. injection H2 as <-.
  assert (Hk1 : 0 < k1) by lra. assert (Hk2 : 0 < k2) by lra.
  rewrite !z_closed_form by lra.
  pose proof (sqrt_le_1_alt k1 k2 Hk).
  pose proof (Rinv_0_lt_compat s Hs).
  unfold pval.
  assert (Phi ((xb - m) * (sqrt k1 * / s)) <= Phi ((xb - m) * (sqrt k2 * / s))).
  { apply Hmono. apply Rmult_le_compat_l; [lra|].
    apply Rmult_le_compat_r; lra. }
  lra.
Qed.

Lemma pval_antitone_in_sample_size_witness :
  pval phi_toy ((103 - 100) / (16 / sqrt 80))
    <= pval phi_toy ((103 - 100) / (16 / sqrt 40)).
Proof.
  apply (pval_antitone_in_sample_size phi_toy phi_toy_mono 103 100 16 40 80);
    [lra | lra | lra | apply z_statistic_ok; lra | apply z_statistic_ok; lra].
Defined.
